(** * Conway's Game of Life on a fixed N x M grid (src/main.cpp)

    A shallow embedding of the class template [GameOfLife<N, M>] and of
    [main] (seeding, display, loop), followed by the properties of the
    update rule, of [setGrid], of the two buffers and of the display. *)

From Stdlib Require Import ZArith Lia.
From Stdlib Require Import String Ascii.
From stdpp Require Import list.

(** ** Machine integers

    [size_t] is taken as a 64-bit unsigned integer.  The sum of a [size_t]
    and an [int] converts the [int] to [size_t] first and wraps. *)

Definition SIZE_MAX : Z := 2 ^ 64 - 1.

Definition to_size_t (z : Z) : Z := z mod (SIZE_MAX + 1).

Definition size_add (a b : Z) : Z := (a + b) mod (SIZE_MAX + 1).

(** A template argument of type [size_t]. *)
Definition size_t_ok (n : nat) : Prop := (Z.of_nat n <= SIZE_MAX)%Z.

(** ** Grids

    [std::array<std::array<bool, M>, N>]: a list of rows.  The static type
    fixes the extent; on lists it is the predicate [is_Grid]. *)

Abbreviation Grid := (list (list bool)).

Definition is_Grid (N M : nat) (g : Grid) : Prop :=
  length g = N ∧ Forall (λ row, length row = M) g.

(** [g[i][j]].  The code reads a cell only at indices it has checked (or
    that its loops bound), so the value outside the extent is never used by
    a well-typed grid; it is [false] here. *)
Definition cell (g : Grid) (i j : nat) : bool :=
  match g !! i with
  | Some row => default false (row !! j)
  | None => false
  end.

(** The grid whose cell (i, j) is [f i j]. *)
Definition grid_of (N M : nat) (f : nat → nat → bool) : Grid :=
  (λ i, f i <$> seq 0 M) <$> seq 0 N.

(** [Grid g{}]: every cell value-initialised to [false]. *)
Definition Grid_zero (N M : nat) : Grid := replicate N (replicate M false).

(** The contiguous cells behind [&g[0][0]], row after row. *)
Definition cells (g : Grid) : list bool := concat g.

(** The rows of [n] consecutive [M]-cell arrays laid over [l]. *)
Fixpoint rows_of (M n : nat) (l : list bool) : Grid :=
  match n with
  | O => []
  | S n' => take M l :: rows_of M n' (drop M l)
  end.

(** [std::copy(first, first + n, out)]: the first [n] cells of the
    destination are overwritten by the first [n] cells of the source. *)
Definition std_copy (n : nat) (src dst : list bool) : list bool :=
  take n src ++ drop n dst.

(** ** The object *)

Record GameOfLife : Type := mkGameOfLife {
  current_grid : Grid;
  future_grid : Grid
}.

(** Both members have the type [Grid] of the instantiation. *)
Definition typed (N M : nat) (s : GameOfLife) : Prop :=
  is_Grid N M (current_grid s) ∧ is_Grid N M (future_grid s).

Definition NeighbourOffsets : list (Z * Z) :=
  [(-1, -1); (-1, 0); (-1, 1); (0, -1); (0, 1); (1, -1); (1, 0); (1, 1)]%Z.

Section GameOfLife.
Variables N M : nat.

(** [GameOfLife<N, M> gol;]: [current_grid{}, future_grid{}]. *)
Definition GameOfLife_new : GameOfLife :=
  {| current_grid := Grid_zero N M; future_grid := Grid_zero N M |}.

(** One turn of the loop of [numberOfAliveNeighbours]. *)
Definition count_neighbour (g : Grid) (i j : nat)
    (alive_neighbours : Z) (offset : Z * Z) : Z :=
  let x := size_add (Z.of_nat i) (to_size_t offset.1) in
  let y := size_add (Z.of_nat j) (to_size_t offset.2) in
  if ((0 <=? x) && (0 <=? y) && (x <? Z.of_nat N) && (y <? Z.of_nat M))%Z
  then if cell g (Z.to_nat x) (Z.to_nat y)
       then size_add alive_neighbours 1
       else alive_neighbours
  else alive_neighbours.

Definition numberOfAliveNeighbours (g : Grid) (i j : nat) : Z :=
  foldl (count_neighbour g i j) 0%Z NeighbourOffsets.

Definition evolveCell (g : Grid) (i j : nat) : bool :=
  let current_state := cell g i j in
  let neighbours := numberOfAliveNeighbours g i j in
  if current_state
  then negb ((neighbours <? 2) || (neighbours >? 3))%Z
  else (neighbours =? 3)%Z.

(** [future_grid[i][j] = v].  The loops of [update] keep [i] and [j] within
    the extent of a typed grid; outside it the list is left as it is. *)
Definition store_future (i j : nat) (v : bool) (s : GameOfLife) : GameOfLife :=
  {| current_grid := current_grid s;
     future_grid := alter (<[j := v]>) i (future_grid s) |}.

(** The body of the inner loop of [update]: [evolveCell] reads the
    [current_grid] of the object as it is at that moment. *)
Definition update_cell (i : nat) (s : GameOfLife) (j : nat) : GameOfLife :=
  store_future i j (evolveCell (current_grid s) i j) s.

Definition update_row (s : GameOfLife) (i : nat) : GameOfLife :=
  foldl (update_cell i) s (seq 0 M).

Definition update_loops (s : GameOfLife) : GameOfLife :=
  foldl update_row s (seq 0 N).

(** [update()]: the two loops, then [current_grid = future_grid]. *)
Definition update (s : GameOfLife) : GameOfLife :=
  let s' := update_loops s in
  {| current_grid := future_grid s'; future_grid := future_grid s' |}.

(** [setGrid(g)]: [N * M] cells are copied from the cells of [g] over the
    cells of [current_grid]. *)
Definition setGrid (g : Grid) (s : GameOfLife) : GameOfLife :=
  {| current_grid :=
       rows_of M N (std_copy (N * M) (cells g) (cells (current_grid s)));
     future_grid := future_grid s |}.

Definition getGrid (s : GameOfLife) : Grid := current_grid s.

(** Aggregate initialisation of a row, then of a [Grid], from a braced
    list: the elements without an initialiser are [false].  A list with
    more initialisers than elements is not accepted by the compiler; the
    definitions are used only on lists that fit. *)
Definition Row_init (r : list bool) : list bool :=
  r ++ replicate (M - length r) false.

Definition Grid_init (p : list (list bool)) : Grid :=
  (Row_init <$> p) ++ replicate (N - length p) (replicate M false).

Definition fits (p : list (list bool)) : Prop :=
  length p ≤ N ∧ Forall (λ r, length r ≤ M) p.

(** The generation that follows [g], cell by cell. *)
Definition next_generation (g : Grid) : Grid :=
  grid_of N M (evolveCell g).
End GameOfLife.

(** ** The program of [main] *)

Definition glider_pattern : list (list bool) :=
  [ [false; true;  false];
    [false; false; true ];
    [true;  true;  true ];
    [false; false; false] ].

Definition glider_layout : Grid := Grid_init 10 10 glider_pattern.

Definition gol_seeded : GameOfLife :=
  setGrid 10 10 glider_layout (GameOfLife_new 10 10).

(** ** Neighbours in mathematical integers

    The offsets and the count of the transition rule as its description
    words them: all (di, dj) with di, dj in {-1, 0, 1} except (0, 0); a
    position counts only if it lies within [0, N) x [0, M) and its cell is
    alive.  No machine arithmetic here. *)

Definition moore_offsets : list (Z * Z) :=
  List.filter (λ o, negb ((o.1 =? 0) && (o.2 =? 0))%Z)
    (di ← [-1; 0; 1]%Z; dj ← [-1; 0; 1]%Z; [(di, dj)]).

Definition in_grid (N M : nat) (a b : Z) : bool :=
  ((0 <=? a) && (a <? Z.of_nat N) && (0 <=? b) && (b <? Z.of_nat M))%Z.

Definition alive_at (N M : nat) (g : Grid) (a b : Z) : bool :=
  in_grid N M a b && cell g (Z.to_nat a) (Z.to_nat b).

Definition live_neighbours (N M : nat) (g : Grid) (i j : nat) : nat :=
  length (List.filter
            (λ o, alive_at N M g (Z.of_nat i + o.1) (Z.of_nat j + o.2))
            moore_offsets).

(** The rule of Life on a state and a number of live neighbours. *)
Definition life_rule (alive : bool) (n : nat) : bool :=
  if alive then (n =? 2) || (n =? 3) else (n =? 3).

Definition unit_step (d : Z) : Prop := (d = -1 ∨ d = 0 ∨ d = 1)%Z.

(** ** The blinker *)

Definition horizontal_run (r c i j : nat) : bool :=
  (i =? r) && (c <=? j) && (j <=? c + 2).

Definition vertical_run (r c i j : nat) : bool :=
  (j =? c + 1) && (r - 1 <=? i) && (i <=? r + 1).

(** ** Patterns *)

(** The initialiser written at row [i], column [j] of a braced list, if
    there is one. *)
Definition pattern_cell (p : list (list bool)) (i j : nat) : option bool :=
  p !! i ≫= (.!! j).

(** The cells of [g] moved by [di] rows and [dj] columns; dead cells come
    in from outside. *)
Definition translated (di dj : nat) (g : Grid) (i j : nat) : bool :=
  if (di <=? i) && (dj <=? j) then cell g (i - di) (j - dj) else false.

(** ** Shapes and symmetries *)

(** The 2 x 2 block with its first cell at (r, c). *)
Definition block (r c i j : nat) : bool :=
  ((i =? r) || (i =? r + 1)) && ((j =? c) || (j =? c + 1)).

(** One live cell, at (r, c). *)
Definition single_cell (r c i j : nat) : bool := (i =? r) && (j =? c).

(** Rows and columns exchanged: an M x N grid from an N x M one. *)
Definition transpose (N M : nat) (g : Grid) : Grid :=
  grid_of M N (λ i j, cell g j i).

(** The rows in the opposite order. *)
Definition flip_rows (N M : nat) (g : Grid) : Grid :=
  grid_of N M (λ i j, cell g (N - 1 - i) j).

(** ** The display of [main]

    [std::cout] is the text written so far.  A [bool] is written as [1] or
    [0] (no [boolalpha]). *)

Definition newline : string := String "010"%char EmptyString.

Definition show_bool (b : bool) : string :=
  if b then "1"%string else "0"%string.

(** [std::cout << cell << " "]. *)
Definition print_cell (out : string) (c : bool) : string :=
  String.append (String.append out (show_bool c)) " ".

(** The inner loop of [print_grid], then [std::cout << "\n"]. *)
Definition print_row (out : string) (row : list bool) : string :=
  String.append (foldl print_cell out row) newline.

(** The lambda [print_grid] of [main]. *)
Definition print_grid (out : string) (gol : GameOfLife) : string :=
  String.append (foldl print_row out (getGrid gol)) newline.

(** One turn of the loop of [main]: [gol.update(); print_grid(gol);].  The
    pause between two turns changes neither the object nor the text. *)
Definition main_turn (N M : nat) (st : GameOfLife * string) (i : nat)
    : GameOfLife * string :=
  let gol := update N M st.1 in (gol, print_grid st.2 gol).

Definition main_loop (N M turns : nat) (gol : GameOfLife) (out : string)
    : GameOfLife * string :=
  foldl (main_turn N M) (gol, out) (seq 0 turns).

(** [main]: its return value, the object at the end and the text written. *)
Definition main : Z * GameOfLife * string :=
  let gol := GameOfLife_new 10 10 in
  let gol := setGrid 10 10 glider_layout gol in
  let out := print_grid EmptyString gol in
  let st := main_loop 10 10 100 gol out in
  (0%Z, st.1, st.2).

(** The text of one grid, as [print_grid] adds it to the output. *)
Definition frame (g : Grid) : string :=
  print_grid EmptyString {| current_grid := g; future_grid := g |}.

(** ** Grids as tables *)

Lemma lookup_grid_of N M f i :
  i < N → grid_of N M f !! i = Some (f i <$> seq 0 M).
Proof.
  intros Hi. unfold grid_of.
  by rewrite list_lookup_fmap, lookup_seq_lt.
Qed.

Lemma cell_grid_of N M f i j :
  i < N → j < M → cell (grid_of N M f) i j = f i j.
Proof.
  intros Hi Hj. unfold cell. rewrite lookup_grid_of by done.
  by rewrite list_lookup_fmap, lookup_seq_lt.
Qed.

Lemma is_Grid_grid_of N M f : is_Grid N M (grid_of N M f).
Proof.
  split.
  - unfold grid_of. by rewrite length_fmap, length_seq.
  - apply Forall_fmap, Forall_forall. intros i _. simpl.
    by rewrite length_fmap, length_seq.
Qed.

Lemma grid_of_ext N M f f' :
  (∀ i j, i < N → j < M → f i j = f' i j) → grid_of N M f = grid_of N M f'.
Proof.
  intros Hff. unfold grid_of. apply list_fmap_ext. intros k i Hk.
  apply lookup_seq in Hk as [-> Hi]. apply list_fmap_ext. intros k' j Hk'.
  apply lookup_seq in Hk' as [-> Hj]. by apply Hff.
Qed.

Lemma is_Grid_row N M g i row :
  is_Grid N M g → g !! i = Some row → length row = M.
Proof. intros [_ Hrows] Hi. by eapply (Forall_lookup_1 _ _ _ _ Hrows Hi). Qed.

(** A typed grid is the table of its own cells. *)
Lemma grid_of_cell N M g : is_Grid N M g → grid_of N M (cell g) = g.
Proof.
  intros Hg. pose proof Hg as [Hlen Hrows]. apply list_eq. intros i.
  destruct (decide (i < N)) as [Hi|Hi].
  - rewrite lookup_grid_of by done.
    destruct (lookup_lt_is_Some_2 g i) as [row Hrow]; [lia|].
    rewrite Hrow. f_equal. apply list_eq. intros j.
    pose proof (is_Grid_row _ _ _ _ _ Hg Hrow) as Hrl.
    rewrite list_lookup_fmap. unfold cell. rewrite Hrow.
    destruct (decide (j < M)) as [Hj|Hj].
    + rewrite lookup_seq_lt by done. simpl.
      destruct (lookup_lt_is_Some_2 row j) as [b Hb]; [lia|]. by rewrite Hb.
    + rewrite lookup_seq_ge by lia. simpl. symmetry.
      apply lookup_ge_None. lia.
  - rewrite (proj2 (lookup_ge_None g i)) by lia.
    apply lookup_ge_None. unfold grid_of.
    rewrite length_fmap, length_seq. lia.
Qed.

(** Two typed grids with the same cells are the same grid. *)
Lemma Grid_ext N M g g' :
  is_Grid N M g → is_Grid N M g' →
  (∀ i j, i < N → j < M → cell g i j = cell g' i j) → g = g'.
Proof.
  intros Hg Hg' Hcells.
  rewrite <- (grid_of_cell N M g), <- (grid_of_cell N M g') by done.
  by apply grid_of_ext.
Qed.

(** ** A loop that stores [e k] at index [k], for [k] from 0 up *)

Lemma foldl_insert_seq {A} (e : nat → A) n (l : list A) :
  n ≤ length l →
  foldl (λ acc k, <[k := e k]> acc) l (seq 0 n) = (e <$> seq 0 n) ++ drop n l.
Proof.
  induction n as [|n IH]; intros Hn; [done|].
  rewrite seq_S, foldl_app, fmap_app, IH by lia. simpl.
  destruct (lookup_lt_is_Some_2 l n) as [x Hx]; [lia|].
  rewrite (drop_S _ _ _ Hx).
  rewrite insert_app_r_alt by (rewrite length_fmap, length_seq; lia).
  rewrite length_fmap, length_seq, Nat.sub_diag. simpl.
  by rewrite <- app_assoc.
Qed.

Lemma foldl_insert_seq_full {A} (e : nat → A) (l : list A) :
  foldl (λ acc k, <[k := e k]> acc) l (seq 0 (length l)) = e <$> seq 0 (length l).
Proof. rewrite foldl_insert_seq by done. by rewrite drop_all, app_nil_r. Qed.

Lemma foldl_alter_insert {A} (e : nat → A) i (ks : list nat) (f : list (list A)) :
  foldl (λ acc k, alter (<[k := e k]>) i acc) f ks
  = alter (λ row, foldl (λ acc k, <[k := e k]> acc) row ks) i f.
Proof.
  revert f. induction ks as [|k ks IH]; intros f; simpl.
  - symmetry. by apply list_alter_id.
  - rewrite IH. by rewrite list_alter_alter_eq.
Qed.

(** ** The loops of [update] *)

Section Update.
Variables N M : nat.

Lemma current_grid_update_row s i l :
  current_grid (foldl (update_cell N M i) s l) = current_grid s.
Proof. revert s. induction l as [|j l IH]; intros s; [done|]. simpl. by rewrite IH. Qed.

Lemma current_grid_update_loops s l :
  current_grid (foldl (update_row N M) s l) = current_grid s.
Proof.
  revert s. induction l as [|i l IH]; intros s; [done|]. simpl.
  rewrite IH. apply current_grid_update_row.
Qed.

(** Every value stored by the inner loop is computed on the grid of
    before the loop. *)
Lemma future_grid_update_cells s i l :
  future_grid (foldl (update_cell N M i) s l)
  = foldl (λ acc j, alter (<[j := evolveCell N M (current_grid s) i j]>) i acc)
          (future_grid s) l.
Proof.
  revert s. induction l as [|j l IH]; intros s; [done|]. simpl.
  by rewrite IH.
Qed.

Lemma future_grid_update_row s i row :
  future_grid s !! i = Some row → length row = M →
  future_grid (update_row N M s i)
  = <[i := evolveCell N M (current_grid s) i <$> seq 0 M]> (future_grid s).
Proof.
  intros Hrow Hlen. unfold update_row.
  rewrite future_grid_update_cells, foldl_alter_insert.
  apply list_eq. intros k. destruct (decide (k = i)) as [->|Hne].
  - rewrite list_lookup_alter_eq, Hrow. simpl.
    rewrite list_lookup_insert_eq by (by eapply lookup_lt_Some).
    f_equal. rewrite <- Hlen. apply foldl_insert_seq_full.
  - by rewrite list_lookup_alter_ne, list_lookup_insert_ne.
Qed.

Lemma future_grid_update_prefix s n :
  is_Grid N M (future_grid s) → n ≤ N →
  future_grid (foldl (update_row N M) s (seq 0 n))
  = ((λ i, evolveCell N M (current_grid s) i <$> seq 0 M) <$> seq 0 n)
    ++ drop n (future_grid s).
Proof.
  intros Hf. induction n as [|n IH]; intros Hn; [done|].
  rewrite seq_S, foldl_app. simpl.
  destruct (lookup_lt_is_Some_2 (future_grid s) n) as [row Hrow];
    [destruct Hf; lia|].
  pose proof (is_Grid_row _ _ _ _ _ Hf Hrow) as Hlen.
  assert (Hlk : future_grid (foldl (update_row N M) s (seq 0 n)) !! n = Some row).
  { rewrite IH by lia. rewrite lookup_app_r; rewrite length_fmap, length_seq; [|done].
    by rewrite lookup_drop, Nat.sub_diag, Nat.add_0_r. }
  rewrite (future_grid_update_row _ _ _ Hlk Hlen).
  rewrite current_grid_update_loops, IH by lia.
  rewrite (drop_S _ _ _ Hrow).
  rewrite insert_app_r_alt by (rewrite length_fmap, length_seq; lia).
  rewrite length_fmap, length_seq, Nat.sub_diag, fmap_app. simpl.
  by rewrite <- app_assoc.
Qed.

Lemma future_grid_update_loops s :
  is_Grid N M (future_grid s) →
  future_grid (update_loops N M s) = next_generation N M (current_grid s).
Proof.
  intros Hf. unfold update_loops.
  rewrite future_grid_update_prefix by done.
  destruct Hf as [Hlen _]. rewrite drop_ge by lia. by rewrite app_nil_r.
Qed.

Lemma update_eq s :
  is_Grid N M (future_grid s) →
  update N M s = {| current_grid := next_generation N M (current_grid s);
                    future_grid := next_generation N M (current_grid s) |}.
Proof. intros Hf. unfold update. by rewrite future_grid_update_loops. Qed.
End Update.

(** ** The count of the code against the count in integers *)

Lemma NeighbourOffsets_moore : NeighbourOffsets = moore_offsets.
Proof. reflexivity. Qed.

Lemma NeighbourOffsets_unit :
  Forall (λ o : Z * Z, unit_step o.1 ∧ unit_step o.2) NeighbourOffsets.
Proof.
  unfold NeighbourOffsets, unit_step.
  repeat first [apply List.Forall_nil | apply List.Forall_cons; [simpl; lia|]].
Qed.

(** The unsigned sum of lines 73-74 against the bound: a step below 0
    wraps to a value that is not below the extent. *)
Lemma size_add_step (n i : nat) (d : Z) :
  size_t_ok n → i < n → unit_step d →
  let x := size_add (Z.of_nat i) (to_size_t d) in
  (0 <=? x)%Z = true ∧
  (x <? Z.of_nat n)%Z = ((0 <=? Z.of_nat i + d) && (Z.of_nat i + d <? Z.of_nat n))%Z ∧
  ((x <? Z.of_nat n)%Z = true → x = (Z.of_nat i + d)%Z).
Proof.
  unfold size_t_ok, size_add, to_size_t, SIZE_MAX, unit_step.
  intros Hn Hi Hd. cbv zeta.
  change (2 ^ 64 - 1 + 1)%Z with 18446744073709551616%Z in *.
  change (2 ^ 64 - 1)%Z with 18446744073709551615%Z in *.
  assert (Hx : ((Z.of_nat i + d mod 18446744073709551616) mod 18446744073709551616
                = if Z.of_nat i + d <? 0
                  then 18446744073709551615 else Z.of_nat i + d)%Z).
  { destruct Hd as [->|[->| ->]].
    - change (-1 mod 18446744073709551616)%Z with 18446744073709551615%Z.
      destruct (Z.ltb_spec (Z.of_nat i + -1) 0).
      + replace (Z.of_nat i) with 0%Z by lia. reflexivity.
      + replace (Z.of_nat i + 18446744073709551615)%Z
          with (Z.of_nat i - 1 + 1 * 18446744073709551616)%Z by lia.
        rewrite Z_mod_plus_full. apply Z.mod_small. lia.
    - change (0 mod 18446744073709551616)%Z with 0%Z.
      destruct (Z.ltb_spec (Z.of_nat i + 0) 0); [lia|].
      apply Z.mod_small. lia.
    - change (1 mod 18446744073709551616)%Z with 1%Z.
      destruct (Z.ltb_spec (Z.of_nat i + 1) 0); [lia|].
      apply Z.mod_small. lia. }
  rewrite Hx. destruct (Z.ltb_spec (Z.of_nat i + d) 0).
  - split; [done|]. split.
    + rewrite (proj2 (Z.ltb_ge _ _)) by lia.
      by rewrite (proj2 (Z.leb_gt _ _)) by lia.
    + intros Hlt. apply Z.ltb_lt in Hlt. lia.
  - split; [apply Z.leb_le; lia|]. split; [|done].
    by rewrite (proj2 (Z.leb_le 0 _)) by lia.
Qed.

Section Neighbours.
Variables N M : nat.
Hypothesis HN : size_t_ok N.
Hypothesis HM : size_t_ok M.

Lemma count_neighbour_eq g i j acc o :
  i < N → j < M → unit_step o.1 → unit_step o.2 →
  (0 <= acc < SIZE_MAX)%Z →
  count_neighbour N M g i j acc o
  = (if alive_at N M g (Z.of_nat i + o.1) (Z.of_nat j + o.2)
     then acc + 1 else acc)%Z.
Proof.
  intros Hi Hj Ho1 Ho2 Hacc. unfold count_neighbour, alive_at, in_grid.
  destruct (size_add_step N i o.1 HN Hi Ho1) as (Hx0 & Hxn & Hx).
  destruct (size_add_step M j o.2 HM Hj Ho2) as (Hy0 & Hyn & Hy).
  cbv zeta in *. rewrite Hx0, Hy0. simpl.
  rewrite <- (andb_assoc (_ && _) (0 <=? _)%Z), <- Hxn, <- Hyn.
  destruct (size_add (Z.of_nat i) (to_size_t o.1) <? Z.of_nat N)%Z eqn:Ex;
    destruct (size_add (Z.of_nat j) (to_size_t o.2) <? Z.of_nat M)%Z eqn:Ey;
    simpl; try done.
  rewrite Hx, Hy by done.
  destruct (cell g _ _); [|done].
  unfold size_add. apply Z.mod_small. unfold SIZE_MAX in *. lia.
Qed.

Lemma foldl_count_neighbour g i j offs acc :
  i < N → j < M →
  Forall (λ o : Z * Z, unit_step o.1 ∧ unit_step o.2) offs →
  (0 <= acc)%Z → (acc + Z.of_nat (length offs) <= SIZE_MAX)%Z →
  foldl (count_neighbour N M g i j) acc offs
  = (acc + Z.of_nat (length (List.filter
       (λ o, alive_at N M g (Z.of_nat i + o.1) (Z.of_nat j + o.2)) offs)))%Z.
Proof.
  intros Hi Hj Hoffs. revert acc.
  induction Hoffs as [|o offs [Ho1 Ho2] _ IH]; intros acc Hacc Hlen; simpl.
  - lia.
  - simpl in Hlen. rewrite count_neighbour_eq by (done || lia).
    destruct (alive_at N M g _ _); simpl; rewrite IH by lia; lia.
Qed.

(** The count of the code is the count of live neighbours within the
    grid. *)
Lemma numberOfAliveNeighbours_eq g i j :
  i < N → j < M →
  numberOfAliveNeighbours N M g i j = Z.of_nat (live_neighbours N M g i j).
Proof.
  intros Hi Hj. unfold numberOfAliveNeighbours, live_neighbours.
  rewrite foldl_count_neighbour;
    [by rewrite NeighbourOffsets_moore| done | done
    | apply NeighbourOffsets_unit | done | by vm_compute].
Qed.

Lemma evolveCell_life_rule g i j :
  i < N → j < M →
  evolveCell N M g i j = life_rule (cell g i j) (live_neighbours N M g i j).
Proof.
  intros Hi Hj. unfold evolveCell, life_rule. cbv zeta.
  rewrite numberOfAliveNeighbours_eq by done.
  set (n := live_neighbours N M g i j).
  destruct (cell g i j).
  - destruct (Nat.eqb_spec n 2) as [->|H2]; [done|].
    destruct (Nat.eqb_spec n 3) as [->|H3]; [done|]. simpl.
    apply negb_false_iff, orb_true_iff.
    destruct (Z.ltb_spec (Z.of_nat n) 2); [by left|right].
    apply Z.gtb_lt. lia.
  - destruct (Nat.eqb_spec n 3) as [->|H3]; [done|].
    apply Z.eqb_neq. lia.
Qed.
End Neighbours.

(** ** The copy of [setGrid] and the initialisation of a [Grid] *)

Lemma length_cells N M g : is_Grid N M g → length (cells g) = N * M.
Proof.
  intros [Hlen Hrows]. subst N. unfold cells.
  induction Hrows as [|row g Hrow _ IH]; [done|].
  simpl. rewrite length_app, IH, Hrow. lia.
Qed.

Lemma rows_of_cells_app M g rest :
  Forall (λ row, length row = M) g →
  rows_of M (length g) (cells g ++ rest) = g.
Proof.
  unfold cells. induction 1 as [|row g Hrow _ IH]; [done|].
  simpl. rewrite <- app_assoc.
  rewrite take_app_length', drop_app_length' by done. by rewrite IH.
Qed.

Lemma rows_of_cells N M g : is_Grid N M g → rows_of M N (cells g) = g.
Proof.
  intros [Hlen Hrows]. subst N.
  rewrite <- (app_nil_r (cells g)). by apply rows_of_cells_app.
Qed.

Lemma std_copy_all n src dst :
  length src = n → length dst = n → std_copy n src dst = src.
Proof.
  intros Hsrc Hdst. unfold std_copy.
  rewrite take_ge, drop_ge by lia. apply app_nil_r.
Qed.

(** On arguments of the declared types [setGrid] is the assignment of the
    whole grid. *)
Lemma setGrid_typed N M g s :
  is_Grid N M g → is_Grid N M (current_grid s) →
  setGrid N M g s = {| current_grid := g; future_grid := future_grid s |}.
Proof.
  intros Hg Hs. unfold setGrid.
  rewrite std_copy_all by (by eapply length_cells).
  by rewrite (rows_of_cells N M).
Qed.

Lemma is_Grid_zero N M : is_Grid N M (Grid_zero N M).
Proof.
  split; [apply length_replicate|].
  apply Forall_replicate, length_replicate.
Qed.

Lemma cell_Grid_zero N M i j : cell (Grid_zero N M) i j = false.
Proof.
  unfold cell, Grid_zero.
  destruct (replicate N (replicate M false) !! i) as [row|] eqn:Hrow; [|done].
  apply lookup_replicate in Hrow as [-> _].
  destruct (replicate M false !! j) as [b|] eqn:Hb; [|done].
  by apply lookup_replicate in Hb as [-> _].
Qed.

Lemma typed_new N M : typed N M (GameOfLife_new N M).
Proof. split; apply is_Grid_zero. Qed.

Lemma typed_update N M s : is_Grid N M (future_grid s) → typed N M (update N M s).
Proof.
  intros Hf. rewrite update_eq by done. split; apply is_Grid_grid_of.
Qed.

Lemma typed_iter_update N M s n :
  typed N M s → typed N M (Nat.iter n (update N M) s).
Proof.
  intros Hs. induction n as [|n IH]; [done|].
  rewrite Nat.iter_succ. apply typed_update, IH.
Qed.

Lemma typed_setGrid N M g s :
  is_Grid N M g → typed N M s → typed N M (setGrid N M g s).
Proof. intros Hg [Hc Hf]. rewrite setGrid_typed by done. by split. Qed.

Section Grid_init.
Variables N M : nat.

Lemma length_Row_init r : length r ≤ M → length (Row_init M r) = M.
Proof.
  intros Hr. unfold Row_init. rewrite length_app, length_replicate. lia.
Qed.

Lemma is_Grid_init p : fits N M p → is_Grid N M (Grid_init N M p).
Proof.
  intros [Hlen Hrows]. unfold Grid_init. split.
  - rewrite length_app, length_fmap, length_replicate. lia.
  - apply Forall_app. split.
    + apply Forall_fmap. eapply Forall_impl; [exact Hrows|].
      intros r Hr. by apply length_Row_init.
    + apply Forall_replicate, length_replicate.
Qed.

(** A cell of the initialised grid is the initialiser written at that
    place, and [false] where the braces give none. *)
Lemma cell_Grid_init p i j : cell (Grid_init N M p) i j = cell p i j.
Proof.
  unfold cell, Grid_init. destruct (p !! i) as [r|] eqn:Hr.
  - rewrite lookup_app_l by (rewrite length_fmap; by eapply lookup_lt_Some).
    rewrite list_lookup_fmap, Hr. simpl. unfold Row_init.
    destruct (r !! j) as [b|] eqn:Hb.
    + by rewrite lookup_app_l, Hb by (by eapply lookup_lt_Some).
    + apply lookup_ge_None in Hb. rewrite lookup_app_r by done.
      destruct (replicate (M - length r) false !! (j - length r)) as [b|] eqn:Eb;
        [|done].
      by apply lookup_replicate in Eb as [-> _].
  - apply lookup_ge_None in Hr.
    rewrite lookup_app_r by (by rewrite length_fmap).
    destruct (replicate _ _ !! _) as [row|] eqn:Hrow; [|done].
    apply lookup_replicate in Hrow as [-> _].
    destruct (replicate M false !! j) as [b|] eqn:Hb; [|done].
    by apply lookup_replicate in Hb as [-> _].
Qed.
End Grid_init.

(** ** The grid without a live cell *)

Section AllDead.
Variables N M : nat.

Lemma count_neighbour_zero i j acc o :
  count_neighbour N M (Grid_zero N M) i j acc o = acc.
Proof.
  unfold count_neighbour. cbv zeta. rewrite cell_Grid_zero.
  by destruct (_ && _).
Qed.

Lemma numberOfAliveNeighbours_zero i j :
  numberOfAliveNeighbours N M (Grid_zero N M) i j = 0%Z.
Proof.
  unfold numberOfAliveNeighbours.
  generalize NeighbourOffsets. intros offs.
  induction offs as [|o offs IH]; [done|].
  simpl. by rewrite count_neighbour_zero.
Qed.

Lemma evolveCell_zero i j : evolveCell N M (Grid_zero N M) i j = false.
Proof.
  unfold evolveCell. cbv zeta.
  by rewrite cell_Grid_zero, numberOfAliveNeighbours_zero.
Qed.

Lemma next_generation_zero :
  next_generation N M (Grid_zero N M) = Grid_zero N M.
Proof.
  apply (Grid_ext N M); [apply is_Grid_grid_of | apply is_Grid_zero |].
  intros i j Hi Hj. unfold next_generation.
  by rewrite cell_grid_of, evolveCell_zero, cell_Grid_zero.
Qed.
End AllDead.

(** ** Counting on a grid given by a table *)

Lemma alive_at_grid_of N M f a b :
  alive_at N M (grid_of N M f) a b
  = in_grid N M a b && f (Z.to_nat a) (Z.to_nat b).
Proof.
  unfold alive_at. destruct (in_grid N M a b) eqn:Hin; [|done]. simpl.
  unfold in_grid in Hin.
  apply andb_prop in Hin as [Hin Hb2]. apply andb_prop in Hin as [Hin Hb1].
  apply andb_prop in Hin as [Ha1 Ha2].
  apply Z.leb_le in Ha1, Hb1. apply Z.ltb_lt in Ha2, Hb2.
  apply cell_grid_of; lia.
Qed.

Lemma length_filter_b2n {A} (f : A → bool) (l : list A) :
  length (List.filter f l) = foldr (λ o n, Nat.b2n (f o) + n) 0 l.
Proof.
  induction l as [|o l IH]; [done|]. simpl.
  destruct (f o); simpl; by rewrite IH.
Qed.

Lemma live_neighbours_sum N M g i j :
  let a := Z.of_nat i in
  let b := Z.of_nat j in
  live_neighbours N M g i j
  = Nat.b2n (alive_at N M g (a + -1) (b + -1))
    + (Nat.b2n (alive_at N M g (a + -1) (b + 0))
    + (Nat.b2n (alive_at N M g (a + -1) (b + 1))
    + (Nat.b2n (alive_at N M g (a + 0) (b + -1))
    + (Nat.b2n (alive_at N M g (a + 0) (b + 1))
    + (Nat.b2n (alive_at N M g (a + 1) (b + -1))
    + (Nat.b2n (alive_at N M g (a + 1) (b + 0))
    + (Nat.b2n (alive_at N M g (a + 1) (b + 1)) + 0))))))).
Proof. unfold live_neighbours. by rewrite length_filter_b2n. Qed.

Lemma bool_false_of_iff (b : bool) (Q : Prop) : (b = true ↔ Q) → ¬ Q → b = false.
Proof. intros HbQ HQ. destruct b; [|done]. exfalso. by apply HQ, HbQ. Qed.

(** ** The blinker, generation by generation *)

Lemma horizontal_run_spec r c i j :
  horizontal_run r c i j = true ↔ i = r ∧ c ≤ j ≤ c + 2.
Proof.
  unfold horizontal_run. rewrite !andb_true_iff.
  rewrite Nat.eqb_eq, !Nat.leb_le. tauto.
Qed.

Lemma vertical_run_spec r c i j :
  vertical_run r c i j = true ↔ j = c + 1 ∧ r - 1 ≤ i ≤ r + 1.
Proof.
  unfold vertical_run. rewrite !andb_true_iff.
  rewrite Nat.eqb_eq, !Nat.leb_le. tauto.
Qed.

Lemma in_grid_spec N M a b :
  in_grid N M a b = true ↔ (0 ≤ a < Z.of_nat N ∧ 0 ≤ b < Z.of_nat M)%Z.
Proof.
  unfold in_grid. rewrite !andb_true_iff.
  rewrite !Z.leb_le, !Z.ltb_lt. tauto.
Qed.

Section Blinker.
Variables N M r c : nat.
Hypothesis HN : size_t_ok N.
Hypothesis HM : size_t_ok M.
Hypothesis Hr : 1 ≤ r ∧ r + 1 < N.
Hypothesis Hc : 1 ≤ c ∧ c + 3 < M.

Local Abbreviation H := (grid_of N M (horizontal_run r c)).
Local Abbreviation V := (grid_of N M (vertical_run r c)).

Lemma alive_at_horizontal a b :
  alive_at N M H a b = true
  ↔ (a = Z.of_nat r ∧ Z.of_nat c ≤ b ≤ Z.of_nat c + 2)%Z.
Proof.
  rewrite alive_at_grid_of, andb_true_iff.
  rewrite in_grid_spec, horizontal_run_spec. lia.
Qed.

Lemma alive_at_vertical a b :
  alive_at N M V a b = true
  ↔ (b = Z.of_nat c + 1 ∧ Z.of_nat r - 1 ≤ a ≤ Z.of_nat r + 1)%Z.
Proof.
  rewrite alive_at_grid_of, andb_true_iff.
  rewrite in_grid_spec, vertical_run_spec. lia.
Qed.

Ltac settle_by spec t :=
  first [ rewrite (bool_false_of_iff t _ spec) by lia
        | rewrite (proj2 spec) by lia ].

Ltac settle_cells :=
  repeat match goal with
  | |- context [alive_at N M H ?a ?b] =>
      settle_by (alive_at_horizontal a b) (alive_at N M H a b)
  | |- context [alive_at N M V ?a ?b] =>
      settle_by (alive_at_vertical a b) (alive_at N M V a b)
  | |- context [horizontal_run r c ?i ?j] =>
      settle_by (horizontal_run_spec r c i j) (horizontal_run r c i j)
  | |- context [vertical_run r c ?i ?j] =>
      settle_by (vertical_run_spec r c i j) (vertical_run r c i j)
  end.

Lemma next_generation_horizontal : next_generation N M H = V.
Proof.
  unfold next_generation. apply grid_of_ext. intros i j Hi Hj.
  rewrite evolveCell_life_rule, live_neighbours_sum by done. cbv zeta.
  rewrite cell_grid_of by done.
  clear HN HM.
  assert (i + 1 < r ∨ i + 1 = r ∨ i = r ∨ i = r + 1 ∨ r + 1 < i)
    as [?|[?|[?|[?|?]]]] by lia;
  assert (j + 1 < c ∨ j + 1 = c ∨ j = c ∨ j = c + 1 ∨ j = c + 2
          ∨ j = c + 3 ∨ c + 3 < j) as [?|[?|[?|[?|[?|[?|?]]]]]] by lia;
  settle_cells; reflexivity.
Qed.

Lemma next_generation_vertical : next_generation N M V = H.
Proof.
  unfold next_generation. apply grid_of_ext. intros i j Hi Hj.
  rewrite evolveCell_life_rule, live_neighbours_sum by done. cbv zeta.
  rewrite cell_grid_of by done.
  clear HN HM.
  assert (i + 2 < r ∨ i + 2 = r ∨ i + 1 = r ∨ i = r ∨ i = r + 1
          ∨ i = r + 2 ∨ r + 2 < i) as [?|[?|[?|[?|[?|[?|?]]]]]] by lia;
  assert (j < c ∨ j = c ∨ j = c + 1 ∨ j = c + 2 ∨ c + 2 < j)
    as [?|[?|[?|[?|?]]]] by lia;
  settle_cells; reflexivity.
Qed.
End Blinker.

(** ** The definitions on small inputs *)

Example corner_of_full_grid :
  numberOfAliveNeighbours 10 10 (replicate 10 (replicate 10 true)) 0 0 = 3%Z.
Proof. vm_compute. reflexivity. Qed.

Example inner_of_full_grid :
  numberOfAliveNeighbours 10 10 (replicate 10 (replicate 10 true)) 4 4 = 8%Z.
Proof. vm_compute. reflexivity. Qed.

Example last_corner_of_full_grid :
  numberOfAliveNeighbours 10 10 (replicate 10 (replicate 10 true)) 9 9 = 3%Z.
Proof. vm_compute. reflexivity. Qed.

Example glider_first_generation :
  getGrid (update 10 10 gol_seeded)
  = Grid_init 10 10 [ [false; false; false];
                      [true;  false; true ];
                      [false; true;  true ];
                      [false; true;  false] ].
Proof. vm_compute. reflexivity. Qed.

(** ** Properties of the transition *)

Ltac typed_by_evaluation :=
  vm_compute; repeat split;
  repeat first [apply List.Forall_nil | apply List.Forall_cons; [reflexivity|]].

Ltac size_by_evaluation := unfold size_t_ok, SIZE_MAX; lia.

Ltac fits_by_evaluation :=
  split; [vm_compute; lia|];
  repeat first [apply List.Forall_nil
               | apply List.Forall_cons; [vm_compute; lia|]].

(** C1. For every grid state and every cell position (i, j), [update] sets
    the cell by the rule of Life: a live cell with exactly 2 or 3 live
    neighbours within the grid stays alive and otherwise dies; a dead cell
    with exactly 3 live neighbours within the grid becomes alive and
    otherwise stays dead. *)
Theorem update_applies_life_rule N M s i j :
  size_t_ok N → size_t_ok M → typed N M s → i < N → j < M →
  let alive := cell (getGrid s) i j in
  let n := live_neighbours N M (getGrid s) i j in
  let alive' := cell (getGrid (update N M s)) i j in
  (alive = true → (alive' = true ↔ n = 2 ∨ n = 3))
  ∧ (alive = false → (alive' = true ↔ n = 3)).
Proof.
  intros HN HM [_ Hf] Hi Hj. cbv zeta. unfold getGrid.
  rewrite update_eq by done. simpl. unfold next_generation.
  rewrite cell_grid_of, evolveCell_life_rule by done.
  split; intros ->; unfold life_rule.
  - rewrite orb_true_iff, !Nat.eqb_eq. tauto.
  - apply Nat.eqb_eq.
Qed.

Lemma update_applies_life_rule_witness :
  size_t_ok 10 ∧ typed 10 10 gol_seeded ∧ 1 < 10 ∧
  (cell (getGrid gol_seeded) 1 1 = false →
   (cell (getGrid (update 10 10 gol_seeded)) 1 1 = true
    ↔ live_neighbours 10 10 (getGrid gol_seeded) 1 1 = 3)).
Proof.
  assert (Hs : size_t_ok 10) by size_by_evaluation.
  assert (Ht : typed 10 10 gol_seeded) by typed_by_evaluation.
  assert (Hlt : 1 < 10) by lia.
  split; [exact Hs|]. split; [exact Ht|]. split; [exact Hlt|].
  exact (proj2 (update_applies_life_rule 10 10 gol_seeded 1 1 Hs Hs Ht Hlt Hlt)).
Defined.

(** C4. The count of live neighbours used by [update] is the number of
    the 8 Moore offsets whose position lies within [0, N) x [0, M) and
    holds a live cell; a live cell at (0, 0) of a grid with N, M >= 2
    counts at most 3 neighbours, and a position outside the grid is never
    counted (no wraparound). *)
Theorem numberOfAliveNeighbours_in_bounds N M g :
  size_t_ok N → size_t_ok M →
  (∀ i j, i < N → j < M →
     numberOfAliveNeighbours N M g i j = Z.of_nat (live_neighbours N M g i j))
  ∧ (∀ a b, in_grid N M a b = false → alive_at N M g a b = false)
  ∧ (2 ≤ N → 2 ≤ M → cell g 0 0 = true →
     (numberOfAliveNeighbours N M g 0 0 ≤ 3)%Z).
Proof.
  intros HN HM. split; [|split].
  - intros i j Hi Hj. by apply numberOfAliveNeighbours_eq.
  - intros a b Hab. unfold alive_at. by rewrite Hab.
  - intros HN2 HM2 _.
    rewrite numberOfAliveNeighbours_eq, live_neighbours_sum by (done || lia).
    cbv zeta. unfold alive_at at 1 2 3 4 6. unfold in_grid. simpl.
    rewrite ?andb_false_r. simpl.
    repeat match goal with
           | |- context [alive_at ?n ?m ?g0 ?a ?b] =>
               destruct (alive_at n m g0 a b)
           end; simpl; lia.
Qed.

Lemma numberOfAliveNeighbours_in_bounds_witness :
  size_t_ok 10 ∧
  numberOfAliveNeighbours 10 10 (replicate 10 (replicate 10 true)) 0 0
  = Z.of_nat (live_neighbours 10 10 (replicate 10 (replicate 10 true)) 0 0).
Proof.
  assert (Hs : size_t_ok 10) by size_by_evaluation.
  split; [exact Hs|].
  apply (proj1 (numberOfAliveNeighbours_in_bounds 10 10
                  (replicate 10 (replicate 10 true)) Hs Hs)); lia.
Defined.

(** C5. After a completed [update], the grid given by [getGrid] is the
    whole next generation of the grid of before the call: every cell is
    computed from that grid alone, the stores of the loops go to the other
    buffer, and up to the final assignment [getGrid] still gives the grid
    of before the call. *)
Theorem update_exposes_next_generation N M s :
  typed N M s →
  getGrid (update N M s) = next_generation N M (getGrid s)
  ∧ (∀ i j, i < N → j < M →
       cell (getGrid (update N M s)) i j = evolveCell N M (getGrid s) i j)
  ∧ (∀ rows, getGrid (foldl (update_row N M) s rows) = getGrid s)
  ∧ (∀ i cols, getGrid (foldl (update_cell N M i) s cols) = getGrid s).
Proof.
  intros [_ Hf]. unfold getGrid. rewrite update_eq by done. simpl.
  split; [done|]. split; [|split].
  - intros i j Hi Hj. unfold next_generation. by apply cell_grid_of.
  - intros rows. apply current_grid_update_loops.
  - intros i cols. apply current_grid_update_row.
Qed.

Lemma update_exposes_next_generation_witness :
  typed 10 10 gol_seeded ∧
  getGrid (update 10 10 gol_seeded) = next_generation 10 10 (getGrid gol_seeded).
Proof.
  assert (Ht : typed 10 10 gol_seeded) by typed_by_evaluation.
  split; [exact Ht|].
  exact (proj1 (update_exposes_next_generation 10 10 gol_seeded Ht)).
Defined.

(** C6. [update] is deterministic: two objects whose current grid is the
    same grid S have the same current grid after one [update] each,
    whatever their other buffer holds. *)
Theorem update_deterministic N M (S : Grid) s1 s2 :
  typed N M s1 → typed N M s2 → getGrid s1 = S → getGrid s2 = S →
  getGrid (update N M s1) = getGrid (update N M s2).
Proof.
  intros [_ Hf1] [_ Hf2] H1 H2. unfold getGrid in *.
  rewrite !update_eq by done. simpl. by rewrite H1, H2.
Qed.

Lemma update_deterministic_witness :
  let s1 := gol_seeded in
  let s2 := setGrid 10 10 glider_layout (Nat.iter 3 (update 10 10) gol_seeded) in
  typed 10 10 s1 ∧ typed 10 10 s2 ∧
  getGrid s1 = glider_layout ∧ getGrid s2 = glider_layout ∧
  future_grid s1 ≠ future_grid s2 ∧
  getGrid (update 10 10 s1) = getGrid (update 10 10 s2).
Proof.
  cbv zeta.
  assert (Ht1 : typed 10 10 gol_seeded) by typed_by_evaluation.
  assert (Ht2 : typed 10 10 (setGrid 10 10 glider_layout
                               (Nat.iter 3 (update 10 10) gol_seeded)))
    by typed_by_evaluation.
  assert (H1 : getGrid gol_seeded = glider_layout) by (vm_compute; reflexivity).
  assert (H2 : getGrid (setGrid 10 10 glider_layout
                          (Nat.iter 3 (update 10 10) gol_seeded)) = glider_layout)
    by (vm_compute; reflexivity).
  split; [exact Ht1|]. split; [exact Ht2|]. split; [exact H1|]. split; [exact H2|].
  split; [vm_compute; discriminate|].
  exact (update_deterministic 10 10 glider_layout _ _ Ht1 Ht2 H1 H2).
Defined.

(** C7. The grid without a live cell is a fixed point of [update]: from a
    grid in which every cell is dead, the grid has no live cell after any
    number n >= 0 of calls. *)
Theorem all_dead_stays_all_dead N M s n :
  typed N M s → getGrid s = Grid_zero N M →
  getGrid (Nat.iter n (update N M) s) = Grid_zero N M.
Proof.
  intros Hs Hdead. induction n as [|n IH]; [done|]. rewrite Nat.iter_succ.
  pose proof (typed_iter_update N M s n Hs) as [_ Hf].
  unfold getGrid in *. rewrite update_eq by done. simpl.
  rewrite IH. apply next_generation_zero.
Qed.

Lemma all_dead_stays_all_dead_witness :
  typed 10 10 (GameOfLife_new 10 10) ∧
  getGrid (GameOfLife_new 10 10) = Grid_zero 10 10 ∧
  getGrid (Nat.iter 7 (update 10 10) (GameOfLife_new 10 10)) = Grid_zero 10 10.
Proof.
  assert (Ht : typed 10 10 (GameOfLife_new 10 10)) by typed_by_evaluation.
  split; [exact Ht|]. split; [reflexivity|].
  exact (all_dead_stays_all_dead 10 10 (GameOfLife_new 10 10) 7 Ht eq_refl).
Defined.

(** C8. The blinker has period 2: on a grid of at least 5 x 5, from
    exactly the three live cells of row r, columns c, c+1, c+2, the run
    touching no boundary, one [update] gives exactly the three live cells
    of column c+1, rows r-1, r, r+1, and a second [update] gives the
    horizontal run back. *)
Theorem blinker_period_two N M r c s :
  size_t_ok N → size_t_ok M → 5 ≤ N → 5 ≤ M →
  1 ≤ r → r + 1 < N → 1 ≤ c → c + 3 < M →
  typed N M s → getGrid s = grid_of N M (horizontal_run r c) →
  getGrid (update N M s) = grid_of N M (vertical_run r c)
  ∧ getGrid (update N M (update N M s)) = grid_of N M (horizontal_run r c).
Proof.
  intros HN HM _ _ Hr1 Hr2 Hc1 Hc2 [_ Hf] Hs. unfold getGrid in *.
  rewrite (update_eq N M s) by done. rewrite update_eq by apply is_Grid_grid_of.
  simpl. rewrite Hs.
  rewrite next_generation_horizontal by (done || lia).
  split; [done|]. apply next_generation_vertical; done || lia.
Qed.

Lemma blinker_period_two_witness :
  let s := {| current_grid := grid_of 5 5 (horizontal_run 2 1);
              future_grid := Grid_zero 5 5 |} in
  size_t_ok 5 ∧ typed 5 5 s ∧
  getGrid (update 5 5 s) = grid_of 5 5 (vertical_run 2 1) ∧
  getGrid (update 5 5 (update 5 5 s)) = grid_of 5 5 (horizontal_run 2 1).
Proof.
  cbv zeta.
  assert (Hs : size_t_ok 5) by size_by_evaluation.
  assert (Ht : typed 5 5 {| current_grid := grid_of 5 5 (horizontal_run 2 1);
                            future_grid := Grid_zero 5 5 |})
    by typed_by_evaluation.
  split; [exact Hs|]. split; [exact Ht|].
  apply (blinker_period_two 5 5 2 1 _ Hs Hs); [lia|lia|lia|lia|lia|lia|exact Ht|].
  reflexivity.
Defined.

(** C9. The glider of [main], seeded at the origin of a 10 x 10 grid with
    every other cell dead, is after four calls of [update] the same shape
    moved by (+1, +1). *)
Theorem glider_translates :
  getGrid gol_seeded = grid_of 10 10 (cell glider_pattern)
  ∧ getGrid (Nat.iter 4 (update 10 10) gol_seeded)
    = grid_of 10 10 (translated 1 1 (getGrid gol_seeded)).
Proof. split; vm_compute; reflexivity. Qed.

(** C10. [setGrid] changes the current grid only: the other buffer is as
    before the call, and the [update] that follows gives the generation
    after the grid written by [setGrid], whatever that buffer held. *)
Theorem setGrid_leaves_future_grid N M g s :
  is_Grid N M g → typed N M s →
  future_grid (setGrid N M g s) = future_grid s
  ∧ getGrid (update N M (setGrid N M g s)) = next_generation N M g
  ∧ (∀ s', typed N M s' →
       update N M (setGrid N M g s') = update N M (setGrid N M g s)).
Proof.
  intros Hg [Hc Hf]. split; [done|]. split.
  - rewrite setGrid_typed by done. unfold getGrid. by rewrite update_eq.
  - intros s' [Hc' Hf']. rewrite !setGrid_typed by done.
    by rewrite !update_eq.
Qed.

Lemma setGrid_leaves_future_grid_witness :
  let s := Nat.iter 3 (update 10 10) gol_seeded in
  is_Grid 10 10 glider_layout ∧ typed 10 10 s ∧
  future_grid s ≠ future_grid (GameOfLife_new 10 10) ∧
  future_grid (setGrid 10 10 glider_layout s) = future_grid s ∧
  update 10 10 (setGrid 10 10 glider_layout (GameOfLife_new 10 10))
  = update 10 10 (setGrid 10 10 glider_layout s).
Proof.
  cbv zeta.
  assert (Hg : is_Grid 10 10 glider_layout) by typed_by_evaluation.
  assert (Ht : typed 10 10 (Nat.iter 3 (update 10 10) gol_seeded))
    by typed_by_evaluation.
  assert (Hn : typed 10 10 (GameOfLife_new 10 10)) by typed_by_evaluation.
  split; [exact Hg|]. split; [exact Ht|]. split; [vm_compute; discriminate|].
  pose proof (setGrid_leaves_future_grid 10 10 glider_layout _ Hg Ht)
    as (Hfut & _ & Hany).
  split; [exact Hfut|]. exact (Hany _ Hn).
Defined.

(** ** Properties of [setGrid] *)

(** C3, against the claim: after four generations the glider of [main] has
    a live cell at (3, 3), outside the 4 x 3 extent of the pattern; seeding
    the same pattern again leaves that cell dead, not as it was. *)
Lemma setGrid_remainder_not_kept :
  let s := Nat.iter 4 (update 10 10) gol_seeded in
  fits 10 10 glider_pattern
  ∧ length glider_pattern < 10
  ∧ pattern_cell glider_pattern 3 3 = None
  ∧ cell (getGrid s) 3 3 = true
  ∧ cell (getGrid (setGrid 10 10 (Grid_init 10 10 glider_pattern) s)) 3 3 = false.
Proof.
  cbv zeta. split; [fits_by_evaluation|].
  split; [vm_compute; lia|]. repeat split; vm_compute; reflexivity.
Qed.

(** C3, amended. For every pattern that fits in N x M, and so for every
    pattern smaller than the grid, given as the braced initialiser of the
    [Grid] passed to [setGrid] (as [glider_layout] in [main]): the cells of
    the pattern are written from row 0, column 0, and every cell of the
    grid outside the extent of the pattern is dead after the call. *)
Theorem setGrid_pattern_at_origin N M p s i j :
  fits N M p → typed N M s → i < N → j < M →
  (∀ b, pattern_cell p i j = Some b →
     cell (getGrid (setGrid N M (Grid_init N M p) s)) i j = b)
  ∧ (pattern_cell p i j = None →
     cell (getGrid (setGrid N M (Grid_init N M p) s)) i j = false).
Proof.
  intros Hp [Hc _] Hi Hj.
  rewrite setGrid_typed by (done || by apply is_Grid_init).
  unfold getGrid. simpl. rewrite cell_Grid_init.
  unfold pattern_cell, cell. destruct (p !! i) as [row|]; simpl.
  - split; [by intros b ->|by intros ->].
  - split; [done|done].
Qed.

Lemma setGrid_pattern_at_origin_witness :
  let s := Nat.iter 4 (update 10 10) gol_seeded in
  fits 10 10 glider_pattern ∧ typed 10 10 s ∧
  cell (getGrid (setGrid 10 10 (Grid_init 10 10 glider_pattern) s)) 3 3 = false.
Proof.
  cbv zeta.
  assert (Hp : fits 10 10 glider_pattern) by fits_by_evaluation.
  assert (Ht : typed 10 10 (Nat.iter 4 (update 10 10) gol_seeded))
    by typed_by_evaluation.
  split; [exact Hp|]. split; [exact Ht|].
  apply (setGrid_pattern_at_origin 10 10 glider_pattern _ 3 3 Hp Ht); [lia|lia|].
  reflexivity.
Defined.

(** ** Further properties of the neighbour count *)

Lemma alive_at_outside N M g a b :
  ¬ (0 ≤ a < Z.of_nat N ∧ 0 ≤ b < Z.of_nat M)%Z → alive_at N M g a b = false.
Proof.
  intros Hout. unfold alive_at.
  destruct (in_grid N M a b) eqn:Hin; [|done].
  apply in_grid_spec in Hin. by destruct Hout.
Qed.

Lemma alive_at_ext N M g g' a b :
  (in_grid N M a b = true →
   cell g (Z.to_nat a) (Z.to_nat b) = cell g' (Z.to_nat a) (Z.to_nat b)) →
  alive_at N M g a b = alive_at N M g' a b.
Proof.
  intros Hcell. unfold alive_at.
  destruct (in_grid N M a b); [|done]. simpl. by apply Hcell.
Qed.

Ltac drop_outside :=
  repeat match goal with
         | |- context [alive_at ?N ?M ?g ?a ?b] =>
             rewrite (alive_at_outside N M g a b) by lia
         end.

Ltac split_cells :=
  repeat match goal with
         | |- context [alive_at ?N ?M ?g ?a ?b] =>
             destruct (alive_at N M g a b)
         end.

(** X1. The tests [x >= 0] and [y >= 0] of [numberOfAliveNeighbours] never
    fail, for any index and any offset: [x] and [y] are unsigned.  The
    bounds are kept by [x < N] and [y < M] alone. *)
Theorem lower_bound_tests_always_pass N M g i j acc o :
  count_neighbour N M g i j acc o
  = (let x := size_add (Z.of_nat i) (to_size_t o.1) in
     let y := size_add (Z.of_nat j) (to_size_t o.2) in
     if ((x <? Z.of_nat N) && (y <? Z.of_nat M))%Z
     then if cell g (Z.to_nat x) (Z.to_nat y)
          then size_add acc 1 else acc
     else acc).
Proof.
  unfold count_neighbour. cbv zeta.
  assert (Hpos : ∀ a b, (0 <=? size_add a b)%Z = true).
  { intros a b. apply Z.leb_le. unfold size_add.
    apply Z.mod_pos_bound. by vm_compute. }
  by rewrite !Hpos.
Qed.

(** X2. The count lies between 0 and 8 and so never wraps; it is at most 5 on
    the first or last row or column, and at most 3 in each of the four
    corners. *)
Theorem neighbour_count_range N M g i j :
  size_t_ok N → size_t_ok M → i < N → j < M →
  (0 ≤ numberOfAliveNeighbours N M g i j ≤ 8)%Z
  ∧ (i = 0 ∨ i + 1 = N ∨ j = 0 ∨ j + 1 = M →
     (numberOfAliveNeighbours N M g i j ≤ 5)%Z)
  ∧ ((i = 0 ∨ i + 1 = N) ∧ (j = 0 ∨ j + 1 = M) →
     (numberOfAliveNeighbours N M g i j ≤ 3)%Z).
Proof.
  intros HN HM Hi Hj.
  rewrite numberOfAliveNeighbours_eq, live_neighbours_sum by done. cbv zeta.
  split; [|split].
  - split_cells; simpl; lia.
  - intros [->|[Hlast|[->|Hlast]]];
      drop_outside; split_cells; simpl; lia.
  - intros [[->|Hi'] [->|Hj']];
      drop_outside; split_cells; simpl; lia.
Qed.

Lemma neighbour_count_range_witness :
  size_t_ok 10 ∧ 9 < 10 ∧
  (numberOfAliveNeighbours 10 10 (replicate 10 (replicate 10 true)) 9 0 ≤ 3)%Z.
Proof.
  assert (Hs : size_t_ok 10) by size_by_evaluation.
  assert (H9 : 9 < 10) by lia. assert (H0 : 0 < 10) by lia.
  split; [exact Hs|]. split; [exact H9|].
  apply (neighbour_count_range 10 10 _ 9 0 Hs Hs H9 H0). lia.
Defined.

(** X3. The next state of a cell depends on the 3 x 3 cells around it only:
    two grids that agree there give the cell the same next state. *)
Theorem evolveCell_local N M g g' i j :
  size_t_ok N → size_t_ok M → i < N → j < M →
  (∀ a b, a < N → b < M → i ≤ a + 1 → a ≤ i + 1 → j ≤ b + 1 → b ≤ j + 1 →
     cell g a b = cell g' a b) →
  evolveCell N M g i j = evolveCell N M g' i j.
Proof.
  intros HN HM Hi Hj Hsame.
  rewrite !evolveCell_life_rule, !live_neighbours_sum by done. cbv zeta.
  rewrite (Hsame i j) by lia.
  repeat match goal with
         | |- context [alive_at N M g ?a ?b] =>
             rewrite (alive_at_ext N M g g' a b)
               by (intros Hin; apply in_grid_spec in Hin; apply Hsame; lia)
         end.
  done.
Qed.

Lemma evolveCell_local_witness :
  size_t_ok 10 ∧ 1 < 10 ∧
  evolveCell 10 10 glider_layout 1 1
  = evolveCell 10 10 (<[9 := replicate 10 true]> glider_layout) 1 1.
Proof.
  assert (Hs : size_t_ok 10) by size_by_evaluation.
  assert (H1 : 1 < 10) by lia.
  split; [exact Hs|]. split; [exact H1|].
  apply (evolveCell_local 10 10 _ _ 1 1 Hs Hs H1 H1).
  intros a b Ha Hb Hlo Hhi _ _.
  assert (Hne : 9 ≠ a) by lia.
  unfold cell. by rewrite list_lookup_insert_ne.
Defined.

(** X4. On a grid of a single row or a single column no cell is born: a dead
    cell has at most 2 neighbours within the grid and is dead after
    [update]. *)
Theorem single_row_or_column_no_birth N M s i j :
  size_t_ok N → size_t_ok M → typed N M s → i < N → j < M →
  N = 1 ∨ M = 1 →
  cell (getGrid s) i j = false →
  cell (getGrid (update N M s)) i j = false.
Proof.
  intros HN HM [_ Hf] Hi Hj Hone Hdead. unfold getGrid in *.
  rewrite update_eq by done. simpl. unfold next_generation.
  rewrite cell_grid_of, evolveCell_life_rule, Hdead by done.
  rewrite live_neighbours_sum. cbv zeta. unfold life_rule.
  apply Nat.eqb_neq.
  destruct Hone as [->| ->];
    drop_outside; split_cells; simpl; lia.
Qed.

Lemma single_row_or_column_no_birth_witness :
  let s := {| current_grid := [[true; true; false; true; true]];
              future_grid := Grid_zero 1 5 |} in
  size_t_ok 1 ∧ size_t_ok 5 ∧ typed 1 5 s ∧
  cell (getGrid s) 0 2 = false ∧
  cell (getGrid (update 1 5 s)) 0 2 = false.
Proof.
  cbv zeta.
  assert (H1 : size_t_ok 1) by size_by_evaluation.
  assert (H5 : size_t_ok 5) by size_by_evaluation.
  assert (Ht : typed 1 5 {| current_grid := [[true; true; false; true; true]];
                            future_grid := Grid_zero 1 5 |})
    by typed_by_evaluation.
  split; [exact H1|]. split; [exact H5|]. split; [exact Ht|].
  split; [reflexivity|].
  apply (single_row_or_column_no_birth 1 5 _ 0 2 H1 H5 Ht); [lia|lia|by left|].
  reflexivity.
Defined.

(** ** Still lifes and dying cells *)

Ltac settle_with spec :=
  first [ rewrite (bool_false_of_iff _ _ spec) by lia
        | rewrite (proj2 spec) by lia ].

Lemma block_spec r c i j :
  block r c i j = true ↔ (i = r ∨ i = r + 1) ∧ (j = c ∨ j = c + 1).
Proof.
  unfold block. rewrite andb_true_iff, !orb_true_iff, !Nat.eqb_eq. tauto.
Qed.

Lemma single_cell_spec r c i j : single_cell r c i j = true ↔ i = r ∧ j = c.
Proof. unfold single_cell. by rewrite andb_true_iff, !Nat.eqb_eq. Qed.

Lemma grid_of_dead N M : grid_of N M (λ _ _, false) = Grid_zero N M.
Proof.
  apply (Grid_ext N M); [apply is_Grid_grid_of | apply is_Grid_zero |].
  intros i j Hi Hj. by rewrite cell_grid_of, cell_Grid_zero.
Qed.

Section Shapes.
Variables N M r c : nat.
Hypothesis HN : size_t_ok N.
Hypothesis HM : size_t_ok M.

Lemma alive_at_block a b :
  r + 1 < N → c + 1 < M →
  alive_at N M (grid_of N M (block r c)) a b = true
  ↔ ((a = Z.of_nat r ∨ a = Z.of_nat r + 1)
     ∧ (b = Z.of_nat c ∨ b = Z.of_nat c + 1))%Z.
Proof.
  intros Hr Hc. rewrite alive_at_grid_of, andb_true_iff.
  rewrite in_grid_spec, block_spec. lia.
Qed.

Lemma alive_at_single_cell a b :
  r < N → c < M →
  alive_at N M (grid_of N M (single_cell r c)) a b = true
  ↔ (a = Z.of_nat r ∧ b = Z.of_nat c)%Z.
Proof.
  intros Hr Hc. rewrite alive_at_grid_of, andb_true_iff.
  rewrite in_grid_spec, single_cell_spec. lia.
Qed.

Lemma next_generation_block :
  r + 1 < N → c + 1 < M →
  next_generation N M (grid_of N M (block r c)) = grid_of N M (block r c).
Proof.
  intros Hr Hc. unfold next_generation. apply grid_of_ext. intros i j Hi Hj.
  rewrite evolveCell_life_rule, live_neighbours_sum by done. cbv zeta.
  rewrite cell_grid_of by done. clear HN HM.
  assert (i + 1 < r ∨ i + 1 = r ∨ i = r ∨ i = r + 1 ∨ i = r + 2 ∨ r + 2 < i)
    as [?|[?|[?|[?|[?|?]]]]] by lia;
  assert (j + 1 < c ∨ j + 1 = c ∨ j = c ∨ j = c + 1 ∨ j = c + 2 ∨ c + 2 < j)
    as [?|[?|[?|[?|[?|?]]]]] by lia;
  repeat match goal with
         | |- context [alive_at N M (grid_of N M (block r c)) ?a ?b] =>
             settle_with (alive_at_block a b Hr Hc)
         | |- context [block r c ?i0 ?j0] =>
             settle_with (block_spec r c i0 j0)
         end; reflexivity.
Qed.

Lemma next_generation_single_cell :
  r < N → c < M →
  next_generation N M (grid_of N M (single_cell r c)) = Grid_zero N M.
Proof.
  intros Hr Hc. rewrite <- grid_of_dead.
  unfold next_generation. apply grid_of_ext. intros i j Hi Hj.
  rewrite evolveCell_life_rule, live_neighbours_sum by done. cbv zeta.
  rewrite cell_grid_of by done. clear HN HM.
  assert (i + 1 < r ∨ i + 1 = r ∨ i = r ∨ i = r + 1 ∨ r + 1 < i)
    as [?|[?|[?|[?|?]]]] by lia;
  assert (j + 1 < c ∨ j + 1 = c ∨ j = c ∨ j = c + 1 ∨ c + 1 < j)
    as [?|[?|[?|[?|?]]]] by lia;
  repeat match goal with
         | |- context [alive_at N M (grid_of N M (single_cell r c)) ?a ?b] =>
             settle_with (alive_at_single_cell a b Hr Hc)
         | |- context [single_cell r c ?i0 ?j0] =>
             settle_with (single_cell_spec r c i0 j0)
         end; reflexivity.
Qed.
End Shapes.

Lemma iter_update_fixed N M (g : Grid) s n :
  typed N M s → next_generation N M g = g → getGrid s = g →
  getGrid (Nat.iter n (update N M) s) = g.
Proof.
  intros Hs Hfix Hg. induction n as [|n IH]; [done|].
  rewrite Nat.iter_succ.
  pose proof (typed_iter_update N M s n Hs) as [_ Hf].
  unfold getGrid in *. rewrite update_eq by done. simpl.
  by rewrite IH.
Qed.

(** X5. The 2 x 2 block is a still life wherever it lies within the grid, on
    an edge or in a corner as well: it is unchanged by any number of calls
    of [update]. *)
Theorem block_is_still_life N M r c s n :
  size_t_ok N → size_t_ok M → r + 1 < N → c + 1 < M →
  typed N M s → getGrid s = grid_of N M (block r c) →
  getGrid (Nat.iter n (update N M) s) = grid_of N M (block r c).
Proof.
  intros HN HM Hr Hc Hs Hblock.
  apply iter_update_fixed; [done| |done]. by apply next_generation_block.
Qed.

Lemma block_is_still_life_witness :
  let s := {| current_grid := grid_of 3 4 (block 1 2);
              future_grid := Grid_zero 3 4 |} in
  size_t_ok 3 ∧ size_t_ok 4 ∧ typed 3 4 s ∧
  getGrid (Nat.iter 5 (update 3 4) s) = grid_of 3 4 (block 1 2).
Proof.
  cbv zeta.
  assert (H3 : size_t_ok 3) by size_by_evaluation.
  assert (H4 : size_t_ok 4) by size_by_evaluation.
  assert (Ht : typed 3 4 {| current_grid := grid_of 3 4 (block 1 2);
                            future_grid := Grid_zero 3 4 |})
    by typed_by_evaluation.
  split; [exact H3|]. split; [exact H4|]. split; [exact Ht|].
  apply (block_is_still_life 3 4 1 2 _ 5 H3 H4); [lia|lia|exact Ht|reflexivity].
Defined.

(** X6. A live cell alone in the grid dies and nothing is born around it: one
    call of [update] leaves no live cell. *)
Theorem lone_cell_dies N M r c s :
  size_t_ok N → size_t_ok M → r < N → c < M →
  typed N M s → getGrid s = grid_of N M (single_cell r c) →
  getGrid (update N M s) = Grid_zero N M.
Proof.
  intros HN HM Hr Hc [_ Hf] Hone. unfold getGrid in *.
  rewrite update_eq by done. simpl. rewrite Hone.
  by apply next_generation_single_cell.
Qed.

Lemma lone_cell_dies_witness :
  let s := {| current_grid := grid_of 4 4 (single_cell 0 3);
              future_grid := grid_of 4 4 (block 1 1) |} in
  size_t_ok 4 ∧ typed 4 4 s ∧ getGrid (update 4 4 s) = Grid_zero 4 4.
Proof.
  cbv zeta.
  assert (H4 : size_t_ok 4) by size_by_evaluation.
  assert (Ht : typed 4 4 {| current_grid := grid_of 4 4 (single_cell 0 3);
                            future_grid := grid_of 4 4 (block 1 1) |})
    by typed_by_evaluation.
  split; [exact H4|]. split; [exact Ht|].
  apply (lone_cell_dies 4 4 0 3 _ H4 H4); [lia|lia|exact Ht|reflexivity].
Defined.

Lemma typed_gol_seeded : typed 10 10 gol_seeded.
Proof. typed_by_evaluation. Qed.

Lemma gol_seeded_generation_31 :
  getGrid (Nat.iter 31 (update 10 10) gol_seeded) = grid_of 10 10 (block 8 8).
Proof. vm_compute. reflexivity. Qed.

Lemma gol_seeded_from_31 n :
  getGrid (Nat.iter n (update 10 10) (Nat.iter 31 (update 10 10) gol_seeded))
  = grid_of 10 10 (block 8 8).
Proof.
  apply iter_update_fixed.
  - apply typed_iter_update, typed_gol_seeded.
  - apply next_generation_block; try size_by_evaluation; lia.
  - apply gol_seeded_generation_31.
Qed.

(** X15. The program of [main]: the glider reaches the last corner of the
    10 x 10 grid and from generation 31 on the grid is the 2 x 2 block of
    rows 8-9, columns 8-9, for ever. *)
Theorem glider_settles_in_corner n :
  getGrid (Nat.iter (31 + n) (update 10 10) gol_seeded)
  = grid_of 10 10 (block 8 8).
Proof. rewrite Nat.add_comm, Nat.iter_add. apply gol_seeded_from_31. Qed.

(** ** Symmetries of the transition *)

Lemma cell_outside_rows N M g i j : is_Grid N M g → N ≤ i → cell g i j = false.
Proof.
  intros [Hlen _] Hi. unfold cell.
  by rewrite (proj2 (lookup_ge_None g i)) by lia.
Qed.

Lemma alive_at_transpose N M g a b :
  alive_at M N (transpose N M g) a b = alive_at N M g b a.
Proof.
  unfold transpose. rewrite alive_at_grid_of. unfold alive_at.
  f_equal. unfold in_grid.
  destruct (0 <=? a)%Z, (a <? Z.of_nat M)%Z, (0 <=? b)%Z, (b <? Z.of_nat N)%Z;
    done.
Qed.

Lemma evolveCell_transpose N M g i j :
  size_t_ok N → size_t_ok M → i < M → j < N →
  evolveCell M N (transpose N M g) i j = evolveCell N M g j i.
Proof.
  intros HN HM Hi Hj.
  rewrite !evolveCell_life_rule, !live_neighbours_sum by done. cbv zeta.
  rewrite !alive_at_transpose. unfold transpose at 1.
  rewrite cell_grid_of by done. f_equal. lia.
Qed.

Lemma next_generation_transpose N M g :
  size_t_ok N → size_t_ok M →
  next_generation M N (transpose N M g) = transpose N M (next_generation N M g).
Proof.
  intros HN HM. unfold next_generation, transpose at 2.
  apply grid_of_ext. intros i j Hi Hj.
  rewrite cell_grid_of by done. by apply evolveCell_transpose.
Qed.

Lemma alive_at_flip_rows N M g i d b :
  i < N →
  alive_at N M (flip_rows N M g) (Z.of_nat i + d) b
  = alive_at N M g (Z.of_nat (N - 1 - i) + - d) b.
Proof.
  intros Hi. unfold flip_rows. rewrite alive_at_grid_of. unfold alive_at.
  destruct (in_grid N M (Z.of_nat i + d) b) eqn:Hin.
  - apply in_grid_spec in Hin.
    rewrite (proj2 (in_grid_spec N M _ b)) by lia. simpl.
    f_equal. lia.
  - simpl. symmetry. apply andb_false_iff. left.
    destruct (in_grid N M (Z.of_nat (N - 1 - i) + - d) b) eqn:Hin'; [|done].
    apply in_grid_spec in Hin'.
    assert (in_grid N M (Z.of_nat i + d) b = true) by (apply in_grid_spec; lia).
    congruence.
Qed.

Lemma evolveCell_flip_rows N M g i j :
  size_t_ok N → size_t_ok M → i < N → j < M →
  evolveCell N M (flip_rows N M g) i j = evolveCell N M g (N - 1 - i) j.
Proof.
  intros HN HM Hi Hj.
  rewrite !evolveCell_life_rule, !live_neighbours_sum by (done || lia).
  cbv zeta. rewrite !(alive_at_flip_rows N M g i) by done.
  change (- (-1))%Z with 1%Z. change (- 0)%Z with 0%Z.
  change (- (1))%Z with (-1)%Z. unfold flip_rows at 1.
  rewrite cell_grid_of by done. f_equal. lia.
Qed.

Lemma next_generation_flip_rows N M g :
  size_t_ok N → size_t_ok M →
  next_generation N M (flip_rows N M g) = flip_rows N M (next_generation N M g).
Proof.
  intros HN HM. unfold next_generation, flip_rows at 2.
  apply grid_of_ext. intros i j Hi Hj.
  rewrite cell_grid_of by (done || lia). by apply evolveCell_flip_rows.
Qed.

(** X7. [update] commutes with the exchange of rows and columns: the object of
    [GameOfLife<M, N>] holding the transposed grid holds, after [update],
    the transposed next generation. *)
Theorem update_commutes_with_transpose N M s t :
  size_t_ok N → size_t_ok M → typed N M s → typed M N t →
  getGrid t = transpose N M (getGrid s) →
  getGrid (update M N t) = transpose N M (getGrid (update N M s)).
Proof.
  intros HN HM [_ Hfs] [_ Hft] Ht. unfold getGrid in *.
  rewrite !update_eq by done. simpl. rewrite Ht.
  by apply next_generation_transpose.
Qed.

Lemma update_commutes_with_transpose_witness :
  let s := {| current_grid := Grid_init 4 6 glider_pattern;
              future_grid := Grid_zero 4 6 |} in
  let t := {| current_grid := transpose 4 6 (Grid_init 4 6 glider_pattern);
              future_grid := Grid_zero 6 4 |} in
  size_t_ok 4 ∧ size_t_ok 6 ∧ typed 4 6 s ∧ typed 6 4 t ∧
  getGrid (update 6 4 t) = transpose 4 6 (getGrid (update 4 6 s)).
Proof.
  cbv zeta.
  assert (H4 : size_t_ok 4) by size_by_evaluation.
  assert (H6 : size_t_ok 6) by size_by_evaluation.
  assert (Hs : typed 4 6 {| current_grid := Grid_init 4 6 glider_pattern;
                            future_grid := Grid_zero 4 6 |})
    by typed_by_evaluation.
  assert (Ht : typed 6 4
                 {| current_grid := transpose 4 6 (Grid_init 4 6 glider_pattern);
                    future_grid := Grid_zero 6 4 |})
    by typed_by_evaluation.
  split; [exact H4|]. split; [exact H6|]. split; [exact Hs|]. split; [exact Ht|].
  exact (update_commutes_with_transpose 4 6 _ _ H4 H6 Hs Ht eq_refl).
Defined.

(** X8. [update] commutes with the reversal of the order of the rows: the
    rule has no preferred direction. *)
Theorem update_commutes_with_flip_rows N M s t :
  size_t_ok N → size_t_ok M → typed N M s → typed N M t →
  getGrid t = flip_rows N M (getGrid s) →
  getGrid (update N M t) = flip_rows N M (getGrid (update N M s)).
Proof.
  intros HN HM [_ Hfs] [_ Hft] Ht. unfold getGrid in *.
  rewrite !update_eq by done. simpl. rewrite Ht.
  by apply next_generation_flip_rows.
Qed.

Lemma update_commutes_with_flip_rows_witness :
  let s := {| current_grid := Grid_init 5 5 glider_pattern;
              future_grid := Grid_zero 5 5 |} in
  let t := {| current_grid := flip_rows 5 5 (Grid_init 5 5 glider_pattern);
              future_grid := Grid_zero 5 5 |} in
  size_t_ok 5 ∧ typed 5 5 s ∧ typed 5 5 t ∧
  getGrid (update 5 5 t) = flip_rows 5 5 (getGrid (update 5 5 s)).
Proof.
  cbv zeta.
  assert (H5 : size_t_ok 5) by size_by_evaluation.
  assert (Hs : typed 5 5 {| current_grid := Grid_init 5 5 glider_pattern;
                            future_grid := Grid_zero 5 5 |})
    by typed_by_evaluation.
  assert (Ht : typed 5 5
                 {| current_grid := flip_rows 5 5 (Grid_init 5 5 glider_pattern);
                    future_grid := Grid_zero 5 5 |})
    by typed_by_evaluation.
  split; [exact H5|]. split; [exact Hs|]. split; [exact Ht|].
  exact (update_commutes_with_flip_rows 5 5 _ _ H5 H5 Hs Ht eq_refl).
Defined.

(** ** Calls in sequence *)

(** X9. [n] calls of [update] give the [n]-th iterate of the transition on the
    current grid; the grid the object held in its other buffer at the start
    plays no part, and after at least one call both buffers hold the same
    grid. *)
Theorem update_iterates N M s n :
  typed N M s →
  getGrid (Nat.iter n (update N M) s)
  = Nat.iter n (next_generation N M) (getGrid s)
  ∧ (0 < n →
     future_grid (Nat.iter n (update N M) s)
     = getGrid (Nat.iter n (update N M) s)).
Proof.
  intros Hs. split.
  - induction n as [|n IH]; [done|]. rewrite !Nat.iter_succ.
    pose proof (typed_iter_update N M s n Hs) as [_ Hf].
    unfold getGrid in *. rewrite update_eq by done. simpl. by rewrite IH.
  - destruct n as [|n]; [lia|]. intros _. by rewrite Nat.iter_succ.
Qed.

Lemma update_iterates_witness :
  typed 10 10 gol_seeded ∧
  getGrid (Nat.iter 4 (update 10 10) gol_seeded)
  = Nat.iter 4 (next_generation 10 10) (getGrid gol_seeded).
Proof.
  assert (Ht : typed 10 10 gol_seeded) by typed_by_evaluation.
  split; [exact Ht|].
  exact (proj1 (update_iterates 10 10 gol_seeded 4 Ht)).
Defined.

(** X10. [setGrid] and [getGrid] as a pair: the grid set is the grid got,
    setting the grid just got changes nothing, and of two calls of
    [setGrid] the second decides. *)
Theorem setGrid_getGrid_laws N M g1 g2 s :
  is_Grid N M g1 → is_Grid N M g2 → typed N M s →
  getGrid (setGrid N M g1 s) = g1
  ∧ setGrid N M (getGrid s) s = s
  ∧ setGrid N M g2 (setGrid N M g1 s) = setGrid N M g2 s.
Proof.
  intros Hg1 Hg2 [Hc Hf]. unfold getGrid.
  rewrite !setGrid_typed by (done || by rewrite setGrid_typed).
  split; [done|]. split; [by destruct s|done].
Qed.

Lemma setGrid_getGrid_laws_witness :
  is_Grid 10 10 glider_layout ∧ is_Grid 10 10 (Grid_zero 10 10) ∧
  typed 10 10 gol_seeded ∧
  setGrid 10 10 (Grid_zero 10 10) (setGrid 10 10 glider_layout gol_seeded)
  = setGrid 10 10 (Grid_zero 10 10) gol_seeded.
Proof.
  assert (Hg : is_Grid 10 10 glider_layout) by typed_by_evaluation.
  assert (Hz : is_Grid 10 10 (Grid_zero 10 10)) by typed_by_evaluation.
  assert (Ht : typed 10 10 gol_seeded) by typed_by_evaluation.
  split; [exact Hg|]. split; [exact Hz|]. split; [exact Ht|].
  exact (proj2 (proj2 (setGrid_getGrid_laws 10 10 _ _ _ Hg Hz Ht))).
Defined.

(** X11. The initialisation of a [Grid] from braces, as in [main]: a list that
    fits gives a grid of the declared extent whose cells are the
    initialisers, [false] where there is none; a list with every row and
    every cell written gives that very grid. *)
Theorem Grid_init_of_fitting_list N M p :
  fits N M p →
  is_Grid N M (Grid_init N M p)
  ∧ (∀ i j, cell (Grid_init N M p) i j = default false (pattern_cell p i j))
  ∧ (is_Grid N M p → Grid_init N M p = p).
Proof.
  intros Hp. split; [by apply is_Grid_init|]. split.
  - intros i j. rewrite cell_Grid_init. unfold cell, pattern_cell.
    by destruct (p !! i).
  - intros Hg. apply (Grid_ext N M); [by apply is_Grid_init|done|].
    intros i j _ _. apply cell_Grid_init.
Qed.

Lemma Grid_init_of_fitting_list_witness :
  fits 10 10 glider_pattern ∧ is_Grid 10 10 (Grid_init 10 10 glider_pattern).
Proof.
  assert (Hp : fits 10 10 glider_pattern) by fits_by_evaluation.
  split; [exact Hp|].
  exact (proj1 (Grid_init_of_fitting_list 10 10 glider_pattern Hp)).
Defined.

(** ** The text written by [print_grid] *)

Lemma string_app_assoc (a b c : string) :
  String.append (String.append a b) c = String.append a (String.append b c).
Proof. induction a as [|x a IH]; [done|]. simpl. by rewrite IH. Qed.

Lemma string_app_nil_r (a : string) : String.append a EmptyString = a.
Proof. induction a as [|x a IH]; [done|]. simpl. by rewrite IH. Qed.

Lemma string_app_length (a b : string) :
  String.length (String.append a b) = String.length a + String.length b.
Proof. induction a as [|x a IH]; [done|]. simpl. by rewrite IH. Qed.

Lemma string_app_inv_head (a b c : string) :
  String.append a b = String.append a c → b = c.
Proof. induction a as [|x a IH]; [done|]. simpl. intros [=]. auto. Qed.

Lemma print_cells_prefix (a b : string) row :
  foldl print_cell (String.append a b) row
  = String.append a (foldl print_cell b row).
Proof.
  revert b. induction row as [|c row IH]; intros b; [done|]. simpl.
  unfold print_cell at 2. rewrite !string_app_assoc.
  rewrite IH. unfold print_cell at 3. by rewrite string_app_assoc.
Qed.

Lemma print_row_prefix (a b : string) row :
  print_row (String.append a b) row = String.append a (print_row b row).
Proof.
  unfold print_row. by rewrite print_cells_prefix, string_app_assoc.
Qed.

Lemma print_rows_prefix (a b : string) (g : Grid) :
  foldl print_row (String.append a b) g
  = String.append a (foldl print_row b g).
Proof.
  revert b. induction g as [|row g IH]; intros b; [done|]. simpl.
  by rewrite print_row_prefix, IH.
Qed.

Lemma print_row_cons c row :
  print_row EmptyString (c :: row)
  = String.append (show_bool c)
      (String.append " " (print_row EmptyString row)).
Proof.
  unfold print_row. simpl. unfold print_cell at 2. simpl.
  rewrite <- (string_app_nil_r (String.append (show_bool c) " ")).
  rewrite print_cells_prefix. by rewrite !string_app_assoc.
Qed.

Lemma frame_cons row (g : Grid) :
  frame (row :: g) = String.append (print_row EmptyString row) (frame g).
Proof.
  unfold frame, print_grid, getGrid. simpl.
  rewrite <- (string_app_nil_r (print_row EmptyString row)).
  rewrite print_rows_prefix. by rewrite string_app_assoc, string_app_nil_r.
Qed.

Lemma print_grid_frame out gol :
  print_grid out gol = String.append out (frame (getGrid gol)).
Proof.
  unfold frame, print_grid, getGrid. simpl.
  rewrite <- (string_app_nil_r out) at 1.
  by rewrite print_rows_prefix, string_app_assoc.
Qed.

Lemma length_print_row row :
  String.length (print_row EmptyString row) = 2 * length row + 1.
Proof.
  induction row as [|c row IH]; [done|].
  rewrite print_row_cons, !string_app_length, IH.
  destruct c; simpl; lia.
Qed.

Lemma length_frame N M g :
  is_Grid N M g → String.length (frame g) = N * (2 * M + 1) + 1.
Proof.
  intros [Hlen Hrows]. subst N.
  induction Hrows as [|row g Hrow _ IH]; [done|].
  rewrite frame_cons, string_app_length, length_print_row, IH, Hrow.
  simpl. lia.
Qed.

Lemma print_row_inj row row' (x x' : string) :
  String.append (print_row EmptyString row) x
  = String.append (print_row EmptyString row') x' →
  row = row' ∧ x = x'.
Proof.
  revert row'. induction row as [|c row IH]; intros [|c' row'].
  - simpl. by intros [=].
  - rewrite print_row_cons. destruct c'; simpl; intros [=].
  - rewrite print_row_cons. destruct c; simpl; intros [=].
  - rewrite !print_row_cons, !string_app_assoc.
    destruct c, c'; simpl; intros [= Heq]; apply IH in Heq as [-> ->]; done.
Qed.

Lemma frame_not_empty (g : Grid) : frame g ≠ EmptyString.
Proof.
  destruct g as [|row g]; [done|]. rewrite frame_cons.
  destruct row as [|c row]; [done|]. rewrite print_row_cons.
  by destruct c.
Qed.

Lemma frame_inj (g g' : Grid) : frame g = frame g' → g = g'.
Proof.
  revert g'. induction g as [|row g IH]; intros [|row' g'].
  - done.
  - rewrite frame_cons. destruct row' as [|c row'].
    + change (frame []) with newline. unfold print_row, newline. simpl.
      intros [= Heq]. symmetry in Heq. by apply frame_not_empty in Heq.
    + rewrite print_row_cons. by destruct c.
  - rewrite frame_cons. destruct row as [|c row].
    + change (frame []) with newline. unfold print_row, newline. simpl.
      intros [= Heq]. by apply frame_not_empty in Heq.
    + rewrite print_row_cons. by destruct c.
  - rewrite !frame_cons. intros Heq.
    apply print_row_inj in Heq as [-> Heq]. f_equal. by apply IH.
Qed.

(** X12. [print_grid] adds one frame to the text and leaves what was written
    before as it is; for a grid of N rows and M columns the frame has
    N * (2 * M + 1) + 1 characters: two for each cell, a newline for each
    row and a last newline. *)
Theorem print_grid_appends_frame N M out gol :
  typed N M gol →
  print_grid out gol = String.append out (frame (getGrid gol))
  ∧ String.length (print_grid out gol)
    = String.length out + (N * (2 * M + 1) + 1).
Proof.
  intros [Hc _]. rewrite print_grid_frame. split; [done|].
  by rewrite string_app_length, (length_frame N M).
Qed.

Lemma print_grid_appends_frame_witness :
  typed 10 10 gol_seeded ∧
  String.length (print_grid "Life"%string gol_seeded) = 4 + 211.
Proof.
  assert (Ht : typed 10 10 gol_seeded) by typed_by_evaluation.
  split; [exact Ht|].
  exact (proj2 (print_grid_appends_frame 10 10 "Life"%string gol_seeded Ht)).
Defined.

(** X13. The text of a grid tells the grid: two objects for which [print_grid]
    writes the same text after the same output hold the same current grid,
    of whatever extent. *)
Theorem print_grid_tells_the_grid out gol gol' :
  print_grid out gol = print_grid out gol' → getGrid gol = getGrid gol'.
Proof.
  rewrite !print_grid_frame. intros Heq.
  by apply string_app_inv_head, frame_inj in Heq.
Qed.

Lemma print_grid_tells_the_grid_witness :
  let gol := setGrid 10 10 glider_layout (Nat.iter 3 (update 10 10) gol_seeded) in
  print_grid EmptyString gol = print_grid EmptyString gol_seeded
  ∧ getGrid gol = getGrid gol_seeded.
Proof.
  cbv zeta.
  assert (Hsame : print_grid EmptyString
                    (setGrid 10 10 glider_layout
                       (Nat.iter 3 (update 10 10) gol_seeded))
                  = print_grid EmptyString gol_seeded)
    by (vm_compute; reflexivity).
  split; [exact Hsame|].
  exact (print_grid_tells_the_grid EmptyString _ _ Hsame).
Defined.

(** ** The loop of [main] *)

Lemma string_concat_cons x (l : list string) :
  String.concat EmptyString (x :: l)
  = String.append x (String.concat EmptyString l).
Proof. destruct l as [|y l]; [|done]. simpl. by rewrite string_app_nil_r. Qed.

Lemma string_concat_snoc (l : list string) x :
  String.concat EmptyString (l ++ [x])
  = String.append (String.concat EmptyString l) x.
Proof.
  induction l as [|y l IH]; [done|].
  rewrite <- app_comm_cons, !string_concat_cons, IH.
  by rewrite string_app_assoc.
Qed.

Lemma main_loop_succ N M turns gol out :
  main_loop N M (S turns) gol out
  = main_turn N M (main_loop N M turns gol out) turns.
Proof. unfold main_loop. by rewrite seq_S, foldl_app. Qed.

Lemma main_loop_object N M turns gol out :
  (main_loop N M turns gol out).1 = Nat.iter turns (update N M) gol.
Proof.
  induction turns as [|k IH]; [done|].
  rewrite main_loop_succ, Nat.iter_succ. simpl. by rewrite IH.
Qed.

Lemma main_loop_text N M turns gol out :
  (main_loop N M turns gol out).2
  = String.append out
      (String.concat EmptyString
         ((λ n, frame (getGrid (Nat.iter n (update N M) gol)))
            <$> seq 1 turns)).
Proof.
  induction turns as [|k IH].
  - simpl. by rewrite string_app_nil_r.
  - rewrite main_loop_succ. unfold main_turn. cbv zeta. simpl snd.
    rewrite print_grid_frame, IH, main_loop_object, <- Nat.iter_succ.
    rewrite string_app_assoc. f_equal.
    rewrite seq_S, fmap_app. simpl. by rewrite string_concat_snoc.
Qed.

Lemma main_loop_length N M turns gol out :
  typed N M gol →
  String.length (main_loop N M turns gol out).2
  = String.length out + turns * (N * (2 * M + 1) + 1).
Proof.
  intros Ht. induction turns as [|k IH]; [simpl; lia|].
  rewrite main_loop_succ. unfold main_turn. cbv zeta. simpl snd.
  rewrite print_grid_frame, string_app_length, IH.
  rewrite main_loop_object, <- Nat.iter_succ.
  pose proof (typed_iter_update N M gol (S k) Ht) as [Hc _].
  unfold getGrid. rewrite (length_frame N M) by done. lia.
Qed.

(** X14. After any number of turns of the loop of [main] the object is the
    start object updated that many times; the text is the text of before
    the loop followed by the frames of generations 1, 2, ... in order, one
    for each turn; its size has grown by one frame for each turn. *)
Theorem main_loop_writes_generations N M turns gol out :
  typed N M gol →
  (main_loop N M turns gol out).1 = Nat.iter turns (update N M) gol
  ∧ (main_loop N M turns gol out).2
    = String.append out
        (String.concat EmptyString
           ((λ n, frame (getGrid (Nat.iter n (update N M) gol)))
              <$> seq 1 turns))
  ∧ String.length (main_loop N M turns gol out).2
    = String.length out + turns * (N * (2 * M + 1) + 1).
Proof.
  intros Ht. split; [apply main_loop_object|].
  split; [apply main_loop_text | by apply main_loop_length].
Qed.

Lemma main_loop_writes_generations_witness :
  typed 10 10 gol_seeded ∧
  String.length (main_loop 10 10 3 gol_seeded EmptyString).2 = 0 + 3 * 211.
Proof.
  assert (Ht : typed 10 10 gol_seeded) by typed_by_evaluation.
  split; [exact Ht|].
  exact (proj2 (proj2 (main_loop_writes_generations 10 10 3 gol_seeded
                         EmptyString Ht))).
Defined.

Lemma string_prefix_app (a b : string) :
  String.prefix a (String.append a b) = true.
Proof.
  induction a as [|x a IH]; simpl; [by destruct b|].
  by destruct (ascii_dec x x).
Qed.

Lemma main_loop_keeps_text N M turns gol out :
  String.prefix out (main_loop N M turns gol out).2 = true.
Proof.
  rewrite main_loop_text. apply string_prefix_app.
Qed.

Lemma print_gol_seeded :
  print_grid EmptyString gol_seeded = frame glider_layout.
Proof. vm_compute. reflexivity. Qed.

(** X16. [main] returns 0; it has written 101 frames of 211 characters, the
    first of them the frame of the seeded glider; its object ends with the
    2 x 2 block in the last corner of the grid. *)
Theorem main_result :
  ∃ gol out,
    main = (0%Z, gol, out)
    ∧ getGrid gol = grid_of 10 10 (block 8 8)
    ∧ String.length out = 101 * 211
    ∧ String.prefix (frame glider_layout) out = true.
Proof.
  exists (main_loop 10 10 100 gol_seeded (print_grid EmptyString gol_seeded)).1.
  exists (main_loop 10 10 100 gol_seeded (print_grid EmptyString gol_seeded)).2.
  split; [unfold main; cbv zeta; reflexivity|]. split; [|split].
  - rewrite main_loop_object. change 100 with (69 + 31).
    rewrite Nat.iter_add. apply gol_seeded_from_31.
  - rewrite main_loop_length by exact typed_gol_seeded.
    rewrite print_gol_seeded.
    rewrite (length_frame 10 10 glider_layout) by typed_by_evaluation. lia.
  - rewrite print_gol_seeded. apply main_loop_keeps_text.
Qed.
